(** * Settler-Zero, [catan/grid.py]: the hexagonal board's coordinate algebra

    A shallow embedding of the module [catan/grid.py] and the properties of
    its coordinate tables, adjacency functions and board enumerations.

    The module is dynamically typed Python.  Coordinates and offsets are
    written in the tables as builtin tuples of ints, tile identifiers as
    ints, directions as strs, and "no tile" as [None]; the operators [+],
    [-], [%], [==], [in] and the subscription [d[k]] are the builtin ones.
    The embedding therefore works over a small universe of Python values
    ([None], ints, strs and tuples of ints; bools and floats, which
    compare equal to ints, are left out) and gives every operator the
    meaning Python gives it on those values, including the exceptions it
    raises.  Calls of the [logging] module are recorded in a log that is
    threaded through every function. *)

From Stdlib Require Import ZArith List String Ascii Bool Lia Permutation.
Import ListNotations.
Local Open Scope string_scope.
Local Open Scope list_scope.
Local Open Scope Z_scope.

(* ================================================================== *)
(** ** Python values, exceptions and the logging effect *)

Module Py.

(** The values the module handles: [None], ints (unbounded), strs and
    tuples of ints.  Every such value is hashable, so all of them may be
    used as dict keys and set members. *)
Inductive value : Type :=
| VNone
| VInt (z : Z)
| VStr (s : string)
| VTuple (zs : list Z).

Inductive exn : Type :=
| TypeError
| ValueError
| KeyError
| Exception.

Inductive level : Type := DEBUG | WARNING | CRITICAL.

(** One call of [logging.debug], [logging.warning] or [logging.critical]:
    its level and the format template of its message. *)
Record record : Type := LogRecord { levelname : level; msg : string }.

Inductive outcome (A : Type) : Type :=
| Return (a : A)
| Raise (e : exn).
Arguments Return {A} a.
Arguments Raise {A} e.

(** A computation: the log records it emitted, then how it ended. *)
Definition py (A : Type) : Type := (list record * outcome A)%type.

Definition ret {A : Type} (a : A) : py A := ([], Return a).

Definition raise {A : Type} (e : exn) : py A := ([], Raise e).

Definition bind {A B : Type} (m : py A) (k : A -> py B) : py B :=
  match m with
  | (l, Return a) => let (l', r) := k a in (l ++ l', r)
  | (l, Raise e) => (l, Raise e)
  end.

Definition logging (lv : level) (template : string) : py unit :=
  ([LogRecord lv template], Return tt).

Definition exn_eqb (a b : exn) : bool :=
  match a, b with
  | TypeError, TypeError | ValueError, ValueError | KeyError, KeyError
  | Exception, Exception => true
  | _, _ => false
  end.

(** [try: m except e: handler] *)
Definition try_except {A : Type} (m : py A) (e : exn) (handler : py A) : py A :=
  match m with
  | (l, Raise e') =>
      if exn_eqb e' e then let (l', r) := handler in (l ++ l', r) else m
  | _ => m
  end.

Definition result {A : Type} (m : py A) : outcome A := snd m.

(** The computation ends by raising some exception. *)
Definition fails {A : Type} (m : py A) : Prop := exists e, result m = Raise e.

(** The computation returns the value [a] to its caller. *)
Definition returns {A : Type} (m : py A) (a : A) : Prop := result m = Return a.

Fixpoint ints_eqb (xs ys : list Z) : bool :=
  match xs, ys with
  | [], [] => true
  | x :: xs', y :: ys' => (x =? y) && ints_eqb xs' ys'
  | _, _ => false
  end.

(** [a == b].  On this universe equality is structural: values of
    different types are never equal. *)
Definition eqb (a b : value) : bool :=
  match a, b with
  | VNone, VNone => true
  | VInt x, VInt y => x =? y
  | VStr s, VStr t => String.eqb s t
  | VTuple xs, VTuple ys => ints_eqb xs ys
  | _, _ => false
  end.

(** [a is None] *)
Definition is_None (a : value) : bool :=
  match a with VNone => true | _ => false end.

(** [a + b]: integer addition on ints, concatenation on two tuples and on
    two strs, [TypeError] on every other pair of operands. *)
Definition add (a b : value) : py value :=
  match a, b with
  | VInt x, VInt y => ret (VInt (x + y))
  | VTuple xs, VTuple ys => ret (VTuple (xs ++ ys))
  | VStr s, VStr t => ret (VStr (s ++ t)%string)
  | _, _ => raise TypeError
  end.

(** [a - b]: defined on ints only; tuples, strs and [None] do not
    support it. *)
Definition sub (a b : value) : py value :=
  match a, b with
  | VInt x, VInt y => ret (VInt (x - y))
  | _, _ => raise TypeError
  end.

(** [x in xs] for a list, a set or the key view of a dict. *)
Definition contains (xs : list value) (x : value) : bool :=
  existsb (eqb x) xs.

(** A set, kept as a list without equal members; [s.add(x)]. *)
Definition set_add (s : list value) (x : value) : list value :=
  if contains s x then s else s ++ [x].

(** [set(xs)] *)
Definition set_of (xs : list value) : list value :=
  fold_left set_add xs [].

(** [len(xs)] *)
Definition len (xs : list value) : Z := Z.of_nat (List.length xs).

(** A dict literal, in insertion order (the order [items()], [keys()]
    and [values()] iterate in). *)
Definition dict : Type := list (value * value).

Definition items (d : dict) : list (value * value) := d.
Definition keys (d : dict) : list value := map fst d.
Definition values (d : dict) : list value := map snd d.

(** [d[k]] *)
Fixpoint getitem (d : dict) (k : value) : py value :=
  match d with
  | [] => raise KeyError
  | (k', v) :: d' => if eqb k' k then ret v else getitem d' k
  end.

(** ['{:x}'.format(v)]: the hexadecimal presentation exists for ints
    only.  The formatted text itself is not kept. *)
Definition format_x (v : value) : py unit :=
  match v with
  | VInt _ => ret tt
  | VStr _ => raise ValueError
  | _ => raise TypeError
  end.

(** [hex(v)] *)
Definition hex (v : value) : py unit :=
  match v with
  | VInt _ => ret tt
  | _ => raise TypeError
  end.

(** A str is kept as the bytes of its UTF-8 encoding, and iterating
    over it yields its code points: a new code point starts at every
    byte that is not a continuation byte (bit pattern [10xxxxxx]).
    [code_points_from s] is the continuation bytes [s] begins with,
    then the code points that follow them. *)
Definition continuation (c : ascii) : bool :=
  match c with
  | Ascii _ _ _ _ _ _ b6 b7 => b7 && negb b6
  end.

Fixpoint code_points_from (s : string) : string * list string :=
  match s with
  | EmptyString => (EmptyString, [])
  | String c s' =>
      let (k, cps) := code_points_from s' in
      if continuation c then (String c k, cps)
      else (EmptyString, String c k :: cps)
  end.

Definition code_points (s : string) : list string :=
  snd (code_points_from s).

(** What [a, b = v] binds.  A tuple of two ints binds two ints; a str of
    two code points binds two one-character strs; a tuple or str of
    another length raises [ValueError]; ints and [None] are not
    iterable.  (Other iterables of two elements, such as lists, are not
    values of this universe.) *)
Inductive pair_of : Type :=
| Ints (a b : Z)
| Chars (a b : string).

Definition unpack2 (v : value) : py pair_of :=
  match v with
  | VTuple [a; b] => ret (Ints a b)
  | VTuple _ => raise ValueError
  | VStr s =>
      match code_points s with
      | [a; b] => ret (Chars a b)
      | _ => raise ValueError
      end
  | _ => raise TypeError
  end.

(** A for loop whose body may [return]: [body x = Some r] leaves the
    function with [r], [None] goes on with the next element, and
    [orelse] is the code after the loop. *)
Fixpoint for_return {A B : Type} (xs : list A) (body : A -> py (option B))
    (orelse : py B) : py B :=
  match xs with
  | [] => orelse
  | x :: xs' =>
      bind (body x) (fun r =>
        match r with
        | Some b => ret b
        | None => for_return xs' body orelse
        end)
  end.

(** A for loop that updates a local variable [s]. *)
Fixpoint for_each {A S : Type} (xs : list A) (s : S) (body : S -> A -> py S)
    : py S :=
  match xs with
  | [] => ret s
  | x :: xs' => bind (body s x) (fun s' => for_each xs' s' body)
  end.

End Py.

Import Py.

Notation "x <- m ;; k" := (bind m (fun x => k))
  (at level 61, m at next level, right associativity).
Notation "m ;;; k" := (bind m (fun _ => k))
  (at level 61, right associativity).

(* ================================================================== *)
(** ** The module [catan/grid.py] *)


Definition _tile_id_to_coord : dict :=
  [ (VInt 1, VTuple [9; 3]); (VInt 12, VTuple [13; 3]); (VInt 11, VTuple [17; 3]);
    (VInt 2, VTuple [7; 5]); (VInt 13, VTuple [11; 5]); (VInt 18, VTuple [15; 5]);
    (VInt 10, VTuple [19; 5]);
    (VInt 3, VTuple [5; 7]); (VInt 14, VTuple [9; 7]); (VInt 19, VTuple [13; 7]);
    (VInt 17, VTuple [17; 7]); (VInt 9, VTuple [21; 7]);
    (VInt 4, VTuple [7; 9]); (VInt 15, VTuple [11; 9]); (VInt 16, VTuple [15; 9]);
    (VInt 8, VTuple [19; 9]);
    (VInt 5, VTuple [9; 11]); (VInt 6, VTuple [13; 11]); (VInt 7, VTuple [17; 11]) ].

Definition _tile_tile_offsets : dict :=
  [ (VTuple [-2; -2], VStr "NW");
    (VTuple [-4; 0], VStr "W");
    (VTuple [-2; 2], VStr "SW");
    (VTuple [2; 2], VStr "SE");
    (VTuple [4; 0], VStr "E");
    (VTuple [2; -2], VStr "NE") ].

Definition _tile_node_offsets : dict :=
  [ (VTuple [0; -1], VStr "N");
    (VTuple [-2; -1], VStr "NW");
    (VTuple [-2; 1], VStr "SW");
    (VTuple [0; 1], VStr "S");
    (VTuple [2; 1], VStr "SE");
    (VTuple [2; -1], VStr "NE") ].

Definition _tile_edge_offsets : dict :=
  [ (VTuple [-1; -1], VStr "NW");
    (VTuple [-2; 0], VStr "W");
    (VTuple [-1; 1], VStr "SW");
    (VTuple [1; 1], VStr "SE");
    (VTuple [2; 0], VStr "E");
    (VTuple [1; -1], VStr "NE") ].

Definition legal_tile_ids : list value := set_of (keys _tile_id_to_coord).

Definition legal_tile_coords : list value := set_of (values _tile_id_to_coord).

Definition tile_id_to_coord (tile_id : value) : py value :=
  try_except (getitem _tile_id_to_coord tile_id) KeyError
    (logging CRITICAL "Attempted conversion of non-existent tile_id={}" ;;;
     ret (VInt (-1))).

Definition tile_id_from_coord (coord : value) : py value :=
  for_return (items _tile_id_to_coord)
    (fun ic => let (i, c) := ic in
               if eqb c coord then ret (Some i) else ret None)
    (hex coord ;;; raise Exception).

Definition tile_tile_offset_to_direction (offset : value) : py value :=
  try_except (getitem _tile_tile_offsets offset) KeyError
    (format_x offset ;;;
     logging CRITICAL
       "Attempted getting direction of non-existent tile-tile offset={:x}" ;;;
     ret (VStr "ZZ")).

Definition tile_node_offset_to_direction (offset : value) : py value :=
  try_except (getitem _tile_node_offsets offset) KeyError
    (format_x offset ;;;
     logging CRITICAL
       "Attempted getting direction of non-existent tile-node offset={:x}" ;;;
     ret (VStr "ZZ")).

Definition tile_edge_offset_to_direction (offset : value) : py value :=
  try_except (getitem _tile_edge_offsets offset) KeyError
    (format_x offset ;;;
     logging CRITICAL
       "Attempted getting direction of non-existent tile-edge offset={:x}" ;;;
     ret (VStr "ZZ")).

Definition tile_id_in_direction (from_tile_id direction : value) : py value :=
  coord_from <- tile_id_to_coord from_tile_id ;;
  for_return (items _tile_tile_offsets)
    (fun od => let (offset, dirn) := od in
       if eqb dirn direction then
         coord_to <- add coord_from offset ;;
         if contains legal_tile_coords coord_to then
           t <- tile_id_from_coord coord_to ;; ret (Some t)
         else ret None
       else ret None)
    (ret VNone).

Definition direction_to_tile (from_tile_id to_tile_id : value) : py value :=
  coord_from <- tile_id_to_coord from_tile_id ;;
  coord_to <- tile_id_to_coord to_tile_id ;;
  offset <- sub coord_to coord_from ;;
  direction <- tile_tile_offset_to_direction offset ;;
  ret direction.

Definition edges_touching_tile (tile_id : value) : py (list value) :=
  coord <- tile_id_to_coord tile_id ;;
  for_each (keys _tile_edge_offsets) []
    (fun edges offset => e <- add coord offset ;; ret (edges ++ [e])).

Definition nodes_touching_tile (tile_id : value) : py (list value) :=
  coord <- tile_id_to_coord tile_id ;;
  for_each (keys _tile_node_offsets) []
    (fun nodes offset => n <- add coord offset ;; ret (nodes ++ [n])).

(** After [a, b = edge_coord] the test [a % 2 == 0] is integer parity
    when [a] is an int.  When [a] is a one-character str, [a % 2] is
    printf-style formatting of a template with no complete conversion in
    it: the lone ["%"] is an incomplete format ([ValueError]), any other
    character leaves the argument unconverted ([TypeError]). *)
Definition nodes_touching_edge (edge_coord : value) : py (list value) :=
  ab <- unpack2 edge_coord ;;
  match ab with
  | Ints a b =>
      if a mod 2 =? 0
      then ret [VTuple [a + 1; b]; VTuple [a - 1; b]]
      else ret [VTuple [a; b - 1]; VTuple [a; b + 1]]
  | Chars a _ =>
      if String.eqb a "%" then raise ValueError else raise TypeError
  end.

Definition coastal_edges (tile_id : value) : py (list value) :=
  tile_coord <- tile_id_to_coord tile_id ;;
  touching <- edges_touching_tile tile_id ;;
  for_each touching []
    (fun edges edge_coord =>
       offset <- sub edge_coord tile_coord ;;
       dirn <- tile_edge_offset_to_direction offset ;;
       t <- tile_id_in_direction tile_id dirn ;;
       if is_None t then ret (edges ++ [edge_coord]) else ret edges).




(** The enumerations iterate over the set [legal_tile_ids()]; the order
    of that iteration is taken as a parameter here, since Python fixes
    none for a set. *)
Definition legal_edge_coords_over (tile_ids : list value) : py (list value) :=
  edges <- for_each tile_ids []
    (fun edges tile_id =>
       touching <- edges_touching_tile tile_id ;;
       for_each touching edges (fun edges edge => ret (set_add edges edge))) ;;
  logging DEBUG "Legal edge coords({})={}" ;;;
  ret edges.

Definition legal_node_coords_over (tile_ids : list value) : py (list value) :=
  nodes <- for_each tile_ids []
    (fun nodes tile_id =>
       touching <- nodes_touching_tile tile_id ;;
       for_each touching nodes (fun nodes node => ret (set_add nodes node))) ;;
  logging DEBUG "Legal node coords({})={}" ;;;
  ret nodes.

Definition legal_edge_coords : py (list value) :=
  legal_edge_coords_over legal_tile_ids.

Definition legal_node_coords : py (list value) :=
  legal_node_coords_over legal_tile_ids.

(** [list(filter(lambda tid: len(coastal_edges(tid)) > 0, tile_ids))],
    with the iteration order of the set [legal_tile_ids()] as a
    parameter, as for the enumerations above. *)
Definition coastal_tile_ids_over (tile_ids : list value) : py (list value) :=
  for_each tile_ids []
    (fun kept tid =>
       edges <- coastal_edges tid ;;
       if 0 <? len edges then ret (kept ++ [tid]) else ret kept).

Definition coastal_tile_ids : py (list value) :=
  coastal_tile_ids_over legal_tile_ids.

(** The members of [coast] are the tuples [(tile_id, dirn)], an
    identifier and a direction, kept here as pairs of values. *)
Definition coastal_coords : py (list (value * value)) :=
  tile_ids <- coastal_tile_ids ;;
  for_each tile_ids []
    (fun coast tile_id =>
       tile_coord <- tile_id_to_coord tile_id ;;
       edges <- coastal_edges tile_id ;;
       for_each edges coast
         (fun coast edge_coord =>
            offset <- sub edge_coord tile_coord ;;
            dirn <- tile_edge_offset_to_direction offset ;;
            t <- tile_id_in_direction tile_id dirn ;;
            if is_None t then ret (coast ++ [(tile_id, dirn)])
            else ret coast)).

(** A function that ends without [return] returns [None]. *)
Definition nearest_tile_to_edge_using_tiles (tile_ids : list value)
    (edge_coord : value) : py value :=
  for_return tile_ids
    (fun tile_id =>
       coord <- tile_id_to_coord tile_id ;;
       offset <- sub edge_coord coord ;;
       if contains (keys _tile_edge_offsets) offset
       then ret (Some tile_id) else ret None)
    (logging CRITICAL "Did not find a tile touching edge={}" ;;;
     ret VNone).

Definition nearest_tile_to_edge (edge_coord : value) : py value :=
  nearest_tile_to_edge_using_tiles legal_tile_ids edge_coord.

Definition nearest_tile_to_node_using_tiles (tile_ids : list value)
    (node_coord : value) : py value :=
  for_return tile_ids
    (fun tile_id =>
       coord <- tile_id_to_coord tile_id ;;
       offset <- sub node_coord coord ;;
       if contains (keys _tile_node_offsets) offset
       then ret (Some tile_id) else ret None)
    (logging CRITICAL "Did not find a tile touching node={}" ;;;
     ret VNone).

Definition nearest_tile_to_node (node_coord : value) : py value :=
  nearest_tile_to_node_using_tiles legal_tile_ids node_coord.

(** The list a computation returns, empty when it raises: what a tile
    contributes to the enumerations below. *)
Definition returned_list (m : py (list value)) : list value :=
  match result m with
  | Return xs => xs
  | Raise _ => []
  end.

Definition debug_legal_edges : record :=
  LogRecord DEBUG "Legal edge coords({})={}".

Definition debug_legal_nodes : record :=
  LogRecord DEBUG "Legal node coords({})={}".

(** The log records the module emits. *)
Definition critical_tile_id : record :=
  LogRecord CRITICAL "Attempted conversion of non-existent tile_id={}".

Definition critical_tile_tile_offset : record :=
  LogRecord CRITICAL
    "Attempted getting direction of non-existent tile-tile offset={:x}".


Definition critical_tile_node_offset : record :=
  LogRecord CRITICAL
    "Attempted getting direction of non-existent tile-node offset={:x}".

Definition critical_tile_edge_offset : record :=
  LogRecord CRITICAL
    "Attempted getting direction of non-existent tile-edge offset={:x}".



(** The labels of the two direction vocabularies. *)
Definition side_directions : list value :=
  [VStr "NW"; VStr "W"; VStr "SW"; VStr "SE"; VStr "E"; VStr "NE"].

Definition corner_directions : list value :=
  [VStr "N"; VStr "NW"; VStr "SW"; VStr "S"; VStr "SE"; VStr "NE"].

(* ================================================================== *)
(** ** Facts about the Python layer *)

Section PyFacts.

Lemma ints_eqb_eq (xs ys : list Z) : ints_eqb xs ys = true <-> xs = ys.
Proof.
  revert ys; induction xs as [|x xs IH]; intros [|y ys]; simpl;
    try (split; [discriminate | congruence]); [tauto|].
  rewrite andb_true_iff, Z.eqb_eq, IH.
  split; [intros [-> ->]; reflexivity | intros E; inversion E; auto].
Qed.

Lemma eqb_eq (a b : value) : eqb a b = true <-> a = b.
Proof.
  destruct a, b; simpl; try (split; [discriminate | congruence]);
    try tauto.
  - rewrite Z.eqb_eq. split; congruence.
  - rewrite String.eqb_eq. split; congruence.
  - rewrite ints_eqb_eq. split; congruence.
Qed.

Lemma eqb_refl (a : value) : eqb a a = true.
Proof. apply eqb_eq; reflexivity. Qed.

Lemma eqb_neq (a b : value) : eqb a b = false <-> a <> b.
Proof.
  rewrite <- eqb_eq. destruct (eqb a b); split; congruence.
Qed.

Lemma contains_In (xs : list value) (x : value) :
  contains xs x = true <-> In x xs.
Proof.
  unfold contains. rewrite existsb_exists. split.
  - intros (y & Hy & E). apply eqb_eq in E. subst; assumption.
  - intros H. exists x. split; [assumption | apply eqb_refl].
Qed.

Lemma contains_not_In (xs : list value) (x : value) :
  contains xs x = false <-> ~ In x xs.
Proof.
  rewrite <- contains_In. destruct (contains xs x); split; congruence.
Qed.

(** The three monad laws of [bind] and [ret]. *)
Lemma bind_ret_l {A B : Type} (a : A) (k : A -> py B) : bind (ret a) k = k a.
Proof. unfold bind, ret. destruct (k a); reflexivity. Qed.

Lemma bind_ret_r {A : Type} (m : py A) : bind m ret = m.
Proof.
  destruct m as [l [a|e]]; simpl; [rewrite app_nil_r|]; reflexivity.
Qed.

Lemma bind_assoc {A B C : Type} (m : py A) (f : A -> py B) (g : B -> py C) :
  bind (bind m f) g = bind m (fun a => bind (f a) g).
Proof.
  destruct m as [l [a|e]]; simpl; [|reflexivity].
  destruct (f a) as [l1 [b|e1]]; simpl; [|reflexivity].
  destruct (g b) as [l2 r]. rewrite app_assoc. reflexivity.
Qed.

Lemma bind_raise {A B : Type} (e : exn) (k : A -> py B) :
  bind (raise e) k = raise e.
Proof. reflexivity. Qed.

(** A subscription either finds an entry of the dict or raises
    [KeyError]; it logs nothing. *)
Lemma getitem_found (d : dict) (k v : value) :
  getitem d k = ret v -> In (k, v) d.
Proof.
  induction d as [|[k' v'] d IH]; simpl; [discriminate|].
  destruct (eqb k' k) eqn:E.
  - apply eqb_eq in E. intros H; inversion H; subst. left; reflexivity.
  - intros H. right; exact (IH H).
Qed.

Lemma getitem_cases (d : dict) (k : value) :
  (exists v, getitem d k = ret v) \/ getitem d k = raise KeyError.
Proof.
  induction d as [|[k' v'] d IH]; simpl; [right; reflexivity|].
  destruct (eqb k' k); [left; eexists; reflexivity | exact IH].
Qed.

Lemma getitem_missing (d : dict) (k : value) :
  ~ In k (keys d) -> getitem d k = raise KeyError.
Proof.
  induction d as [|[k' v'] d IH]; simpl; [reflexivity|].
  intros H. destruct (eqb k' k) eqn:E.
  - apply eqb_eq in E. tauto.
  - apply IH. tauto.
Qed.

Lemma getitem_present (d : dict) (k : value) :
  In k (keys d) -> exists v, getitem d k = ret v /\ In (k, v) d.
Proof.
  intros H. destruct (getitem_cases d k) as [[v Hv]|Hn].
  - exists v. split; [assumption | apply getitem_found; assumption].
  - exfalso. revert H Hn. induction d as [|[k' v'] d IH]; simpl; [tauto|].
    destruct (eqb k' k) eqn:E; [discriminate|].
    intros [->|H]; [rewrite eqb_refl in E; discriminate | auto].
Qed.

End PyFacts.

(* ================================================================== *)
(** ** The coordinate tables *)

Lemma legal_tile_ids_keys : legal_tile_ids = keys _tile_id_to_coord.
Proof. reflexivity. Qed.

Lemma legal_tile_coords_values : legal_tile_coords = values _tile_id_to_coord.
Proof. reflexivity. Qed.

(** The legal tile identifiers are the ints 1 to 19. *)
Lemma legal_tile_ids_range (t : value) :
  In t legal_tile_ids <-> exists z, t = VInt z /\ 1 <= z <= 19.
Proof.
  rewrite legal_tile_ids_keys. split.
  - simpl. intros H.
    repeat (destruct H as [<-|H]; [eexists; split; [reflexivity | lia]|]).
    contradiction.
  - intros (z & -> & Hz).
    assert (Hc : exists n : nat, z = Z.of_nat n /\ (1 <= n <= 19)%nat)
      by (exists (Z.to_nat z); lia).
    destruct Hc as (n & -> & Hn).
    do 20 (destruct n as [|n]; [try lia; simpl; tauto|]). lia.
Qed.

(** Every entry of the tile table is a tuple of two ints. *)
Lemma tile_coords_are_pairs (k c : value) :
  In (k, c) _tile_id_to_coord -> exists x y, c = VTuple [x; y].
Proof.
  simpl. intros H.
  repeat (destruct H as [H|H]; [inversion H; eauto|]). contradiction.
Qed.

(** [tile_id_to_coord] never raises: it returns the table's entry, or
    logs and returns the int [-1]. *)
Lemma tile_id_to_coord_legal (t : value) :
  In t legal_tile_ids ->
  exists x y, In (t, VTuple [x; y]) _tile_id_to_coord /\
              tile_id_to_coord t = ret (VTuple [x; y]).
Proof.
  rewrite legal_tile_ids_keys. intros H.
  destruct (getitem_present _ _ H) as (c & Hc & Hin).
  destruct (tile_coords_are_pairs _ _ Hin) as (x & y & ->).
  exists x, y. split; [assumption|].
  unfold tile_id_to_coord. rewrite Hc. reflexivity.
Qed.

Lemma tile_id_to_coord_illegal (t : value) :
  ~ In t legal_tile_ids ->
  tile_id_to_coord t = ([critical_tile_id], Return (VInt (-1))).
Proof.
  rewrite legal_tile_ids_keys. intros H.
  unfold tile_id_to_coord. rewrite (getitem_missing _ _ H). reflexivity.
Qed.

Lemma legal_tile_id_dec (t : value) :
  {In t legal_tile_ids} + {~ In t legal_tile_ids}.
Proof.
  destruct (contains legal_tile_ids t) eqn:E.
  - left. apply contains_In; assumption.
  - right. apply contains_not_In; assumption.
Qed.

(** C3: for every legal tile identifier [t],
    [tile_id_from_coord(tile_id_to_coord(t)) == t], and no other legal
    tile has the coordinate of [t], so the inverse lookup is well
    defined. *)
Theorem tile_id_roundtrip (t : value) (Ht : In t legal_tile_ids) :
  (c <- tile_id_to_coord t ;; tile_id_from_coord c) = ret t /\
  (forall u, In u legal_tile_ids ->
             tile_id_to_coord u = tile_id_to_coord t -> u = t).
Proof.
  assert (RT : forall v, In v legal_tile_ids ->
            (c <- tile_id_to_coord v ;; tile_id_from_coord c) = ret v).
  { intros v Hv. rewrite legal_tile_ids_keys in Hv. simpl in Hv.
    repeat (destruct Hv as [<-|Hv]; [vm_compute; reflexivity|]).
    contradiction. }
  split; [exact (RT t Ht)|].
  intros u Hu E.
  pose proof (RT u Hu) as Ru. rewrite E, (RT t Ht) in Ru.
  inversion Ru; reflexivity.
Qed.

Lemma tile_id_roundtrip_witness :
  In (VInt 19) legal_tile_ids /\
  (c <- tile_id_to_coord (VInt 19) ;; tile_id_from_coord c) = ret (VInt 19).
Proof.
  assert (H : In (VInt 19) legal_tile_ids) by (vm_compute; tauto).
  split; [exact H | exact (proj1 (tile_id_roundtrip (VInt 19) H))].
Defined.

(* ================================================================== *)
(** ** Invalid inputs: sentinels instead of errors *)




(* ================================================================== *)
(** ** The two nodes of an edge *)

(** C6: for every pair of ints [(a, b)], legal or not,
    [nodes_touching_edge] returns exactly [(a+1, b)] and [(a-1, b)] when
    [a] is even, and exactly [(a, b-1)] and [(a, b+1)] when [a] is odd. *)
Theorem nodes_touching_edge_parity (a b : Z) :
  (Z.Even a ->
     nodes_touching_edge (VTuple [a; b]) =
       ret [VTuple [a + 1; b]; VTuple [a - 1; b]]) /\
  (Z.Odd a ->
     nodes_touching_edge (VTuple [a; b]) =
       ret [VTuple [a; b - 1]; VTuple [a; b + 1]]).
Proof.
  unfold nodes_touching_edge.
  change (unpack2 (VTuple [a; b])) with (ret (Ints a b)).
  rewrite bind_ret_l. split.
  - intros [k ->]. replace (2 * k) with (k * 2) by lia.
    rewrite Z.mod_mul by lia. reflexivity.
  - intros [k ->]. replace (2 * k + 1) with (1 + k * 2) by lia.
    rewrite Z.mod_add by lia. reflexivity.
Qed.

Lemma nodes_touching_edge_parity_witness :
  nodes_touching_edge (VTuple [-8; 2]) = ret [VTuple [-7; 2]; VTuple [-9; 2]] /\
  nodes_touching_edge (VTuple [7; 3]) = ret [VTuple [7; 2]; VTuple [7; 4]].
Proof.
  split.
  - apply (proj1 (nodes_touching_edge_parity (-8) 2)).
    exists (-4). reflexivity.
  - apply (proj2 (nodes_touching_edge_parity 7 3)).
    exists 3. reflexivity.
Defined.

(* ================================================================== *)
(** ** The dispatcher [from_location] *)



(* ================================================================== *)
(** ** Coordinate arithmetic on tuples

    The tables hold coordinates and offsets as tuples, and the functions
    combine them with [+] and [-].  On tuples [+] concatenates and [-] is
    not defined, so a tile coordinate "plus" an offset has four
    components, and a difference of two coordinates raises [TypeError]. *)

Lemma add_tuples (c o : list Z) :
  add (VTuple c) (VTuple o) = ret (VTuple (c ++ o)).
Proof. reflexivity. Qed.

Lemma sub_tuple_l (c : list Z) (v : value) : sub (VTuple c) v = raise TypeError.
Proof. reflexivity. Qed.

Lemma sub_tuple_r (v : value) (c : list Z) : sub v (VTuple c) = raise TypeError.
Proof. destruct v; reflexivity. Qed.

Lemma legal_tile_coords_are_pairs (zs : list Z) :
  In (VTuple zs) legal_tile_coords -> List.length zs = 2%nat.
Proof.
  rewrite legal_tile_coords_values. simpl. intros H.
  repeat (destruct H as [H|H]; [inversion H; reflexivity|]). contradiction.
Qed.

Lemma four_tuple_not_tile_coord (x y dx dy : Z) :
  contains legal_tile_coords (VTuple [x; y; dx; dy]) = false.
Proof.
  apply contains_not_In. intros H.
  apply legal_tile_coords_are_pairs in H. discriminate H.
Qed.

(** A loop whose body never returns falls through to the code after it. *)
Lemma for_return_fallthrough {A B : Type} (xs : list A)
    (body : A -> py (option B)) (orelse : py B) :
  Forall (fun x => body x = ret None) xs ->
  for_return xs body orelse = orelse.
Proof.
  induction 1 as [|x xs Hx _ IH]; simpl; [reflexivity|].
  rewrite Hx, bind_ret_l. exact IH.
Qed.

(** From a legal tile no neighbour is ever found, in any direction. *)
Lemma tile_id_in_direction_legal (t d : value) :
  In t legal_tile_ids -> tile_id_in_direction t d = ret VNone.
Proof.
  intros Ht. destruct (tile_id_to_coord_legal t Ht) as (x & y & _ & E).
  unfold tile_id_in_direction. rewrite E, bind_ret_l.
  apply for_return_fallthrough.
  unfold items, _tile_tile_offsets.
  repeat (apply Forall_cons;
          [destruct (eqb _ d); [|reflexivity];
           rewrite add_tuples, bind_ret_l; simpl app;
           rewrite four_tuple_not_tile_coord; reflexivity|]).
  apply Forall_nil.
Qed.

(** C1, evaluated on the code: tile 1 is at [(9, 3)], tile 12 at
    [(13, 3)], the offset [(4, 0)] is direction ["E"], and
    [tile_id_in_direction(1, "W")] is [None]; but
    [tile_id_in_direction(1, "E")] is [None] as well, not 12, because
    [(9, 3) + (4, 0)] is the tuple [(9, 3, 4, 0)], which is no tile
    coordinate. *)
Theorem tile_1_east_not_found :
  tile_id_to_coord (VInt 1) = ret (VTuple [9; 3]) /\
  tile_id_to_coord (VInt 12) = ret (VTuple [13; 3]) /\
  tile_tile_offset_to_direction (VTuple [4; 0]) = ret (VStr "E") /\
  tile_id_in_direction (VInt 1) (VStr "W") = ret VNone /\
  add (VTuple [9; 3]) (VTuple [4; 0]) = ret (VTuple [9; 3; 4; 0]) /\
  tile_id_in_direction (VInt 1) (VStr "E") = ret VNone /\
  ~ returns (tile_id_in_direction (VInt 1) (VStr "E")) (VInt 12).
Proof.
  assert (H1 : In (VInt 1) legal_tile_ids)
    by (apply legal_tile_ids_range; exists 1; split; [reflexivity | lia]).
  do 3 (split; [reflexivity|]).
  split; [apply tile_id_in_direction_legal; exact H1|].
  split; [apply add_tuples|].
  split; [apply tile_id_in_direction_legal; exact H1|].
  unfold returns. rewrite (tile_id_in_direction_legal _ _ H1).
  discriminate.
Qed.

(** What the two loops over the offset tables build from a coordinate
    [c]: one value [c + offset] per key of the table. *)
Lemma for_each_append (c : value) (os acc : list value) (rs : list value) :
  Forall2 (fun o r => add c o = ret r) os rs ->
  for_each os acc (fun xs o => e <- add c o ;; ret (xs ++ [e])) =
  ret (acc ++ rs).
Proof.
  intros H. revert acc.
  induction H as [|o r os rs Hor _ IH]; intros acc; simpl.
  - rewrite app_nil_r. reflexivity.
  - rewrite Hor, !bind_ret_l, IH, <- app_assoc. reflexivity.
Qed.

Lemma edges_touching_tile_legal (t : value) (x y : Z) :
  tile_id_to_coord t = ret (VTuple [x; y]) ->
  edges_touching_tile t =
    ret [VTuple [x; y; -1; -1]; VTuple [x; y; -2; 0]; VTuple [x; y; -1; 1];
         VTuple [x; y; 1; 1]; VTuple [x; y; 2; 0]; VTuple [x; y; 1; -1]].
Proof.
  intros E. unfold edges_touching_tile. rewrite E, bind_ret_l.
  apply (for_each_append _ _ []).
  repeat constructor.
Qed.

Lemma nodes_touching_tile_legal (t : value) (x y : Z) :
  tile_id_to_coord t = ret (VTuple [x; y]) ->
  nodes_touching_tile t =
    ret [VTuple [x; y; 0; -1]; VTuple [x; y; -2; -1]; VTuple [x; y; -2; 1];
         VTuple [x; y; 0; 1]; VTuple [x; y; 2; 1]; VTuple [x; y; 2; -1]].
Proof.
  intros E. unfold nodes_touching_tile. rewrite E, bind_ret_l.
  apply (for_each_append _ _ []).
  repeat constructor.
Qed.

Lemma NoDup_six_suffixes (x y : Z) (o1 o2 o3 o4 o5 o6 : list Z) :
  NoDup [o1; o2; o3; o4; o5; o6] ->
  NoDup (map (fun o => VTuple (x :: y :: o)) [o1; o2; o3; o4; o5; o6]).
Proof.
  intros H. apply Finite.Injective_map_NoDup; [|exact H].
  intros a b E. inversion E; reflexivity.
Qed.

(** C4, evaluated on the code: for every legal tile, at coordinate
    [(x, y)], [edges_touching_tile] and [nodes_touching_tile] each return
    6 distinct values, one per offset [(dx, dy)] of the table; but each
    value is the concatenation [(x, y, dx, dy)], and none of them is a
    componentwise sum [(x + dx, y + dy)]. *)
Theorem touching_tile_concatenates :
  Forall (fun t =>
    exists x y es ns,
      tile_id_to_coord t = ret (VTuple [x; y]) /\
      edges_touching_tile t = ret es /\
      nodes_touching_tile t = ret ns /\
      List.length es = 6%nat /\ NoDup es /\
      List.length ns = 6%nat /\ NoDup ns /\
      Forall2 (fun o e => exists dx dy,
                 o = VTuple [dx; dy] /\ e = VTuple [x; y; dx; dy])
              (keys _tile_edge_offsets) es /\
      Forall2 (fun o n => exists dx dy,
                 o = VTuple [dx; dy] /\ n = VTuple [x; y; dx; dy])
              (keys _tile_node_offsets) ns /\
      Forall (fun c => forall dx dy, c <> VTuple [x + dx; y + dy]) (es ++ ns))
    legal_tile_ids /\
  edges_touching_tile (VInt 1) =
    ret [VTuple [9; 3; -1; -1]; VTuple [9; 3; -2; 0]; VTuple [9; 3; -1; 1];
         VTuple [9; 3; 1; 1]; VTuple [9; 3; 2; 0]; VTuple [9; 3; 1; -1]].
Proof.
  split; [|reflexivity].
  apply Forall_forall. intros t Ht.
  destruct (tile_id_to_coord_legal t Ht) as (x & y & _ & E).
  exists x, y. do 2 eexists.
  split; [exact E|].
  split; [exact (edges_touching_tile_legal t x y E)|].
  split; [exact (nodes_touching_tile_legal t x y E)|].
  split; [reflexivity|].
  split.
  { apply (NoDup_six_suffixes x y [-1; -1] [-2; 0] [-1; 1] [1; 1] [2; 0] [1; -1]).
    repeat constructor; simpl; intuition discriminate. }
  split; [reflexivity|].
  split.
  { apply (NoDup_six_suffixes x y [0; -1] [-2; -1] [-2; 1] [0; 1] [2; 1] [2; -1]).
    repeat constructor; simpl; intuition discriminate. }
  split; [repeat (constructor; [do 2 eexists; split; reflexivity|]); constructor|].
  split; [repeat (constructor; [do 2 eexists; split; reflexivity|]); constructor|].
  simpl app. repeat (constructor; [intros dx dy; discriminate|]). constructor.
Qed.

(* ================================================================== *)
(** ** Coastal edges and the direction between two tiles *)

Lemma coastal_edges_legal (t : value) :
  In t legal_tile_ids -> coastal_edges t = raise TypeError.
Proof.
  intros Ht. destruct (tile_id_to_coord_legal t Ht) as (x & y & _ & E).
  unfold coastal_edges.
  rewrite E, bind_ret_l, (edges_touching_tile_legal t x y E), bind_ret_l.
  reflexivity.
Qed.

Lemma edges_touching_tile_illegal (t : value) :
  ~ In t legal_tile_ids ->
  edges_touching_tile t = ([critical_tile_id], Raise TypeError).
Proof.
  intros Ht. unfold edges_touching_tile.
  rewrite (tile_id_to_coord_illegal t Ht). reflexivity.
Qed.

(** C5, evaluated on the code: [coastal_edges] returns no subset of the
    touching edges; for every tile identifier, legal or not, it ends by
    raising [TypeError], at the first [edge_coord - tile_coord] for a
    legal tile (both operands are tuples) and inside
    [edges_touching_tile] otherwise. *)
Theorem coastal_edges_raises (t : value) :
  result (coastal_edges t) = Raise TypeError /\
  forall edges, ~ returns (coastal_edges t) edges.
Proof.
  assert (R : result (coastal_edges t) = Raise TypeError).
  { destruct (legal_tile_id_dec t) as [Ht|Ht].
    - rewrite (coastal_edges_legal t Ht). reflexivity.
    - unfold coastal_edges.
      rewrite (tile_id_to_coord_illegal t Ht), (edges_touching_tile_illegal t Ht).
      reflexivity. }
  split; [exact R|].
  intros edges. unfold returns. rewrite R. discriminate.
Qed.

Lemma direction_to_tile_legal (t u : value) :
  In t legal_tile_ids -> In u legal_tile_ids ->
  direction_to_tile t u = raise TypeError.
Proof.
  intros Ht Hu.
  destruct (tile_id_to_coord_legal t Ht) as (x & y & _ & Et).
  destruct (tile_id_to_coord_legal u Hu) as (x' & y' & _ & Eu).
  unfold direction_to_tile.
  rewrite Et, bind_ret_l, Eu, bind_ret_l, sub_tuple_l. reflexivity.
Qed.

(** C9, evaluated on the code: for every pair of legal tiles, adjacent
    or not, [direction_to_tile] raises [TypeError] at
    [coord_to - coord_from].  Tiles 1 and 12 are at [(9, 3)] and
    [(13, 3)], which differ by the offset [(4, 0)] of direction ["E"],
    and [direction_to_tile(1, 12)] raises instead of returning ["E"]. *)
Theorem direction_to_tile_raises :
  Forall (fun t =>
    Forall (fun u => direction_to_tile t u = raise TypeError) legal_tile_ids)
    legal_tile_ids /\
  tile_id_to_coord (VInt 1) = ret (VTuple [9; 3]) /\
  tile_id_to_coord (VInt 12) = ret (VTuple [13; 3]) /\
  getitem _tile_tile_offsets (VTuple [13 - 9; 3 - 3]) = ret (VStr "E") /\
  direction_to_tile (VInt 1) (VInt 12) = raise TypeError.
Proof.
  split.
  - apply Forall_forall. intros t Ht.
    apply Forall_forall. intros u Hu.
    exact (direction_to_tile_legal t u Ht Hu).
  - repeat split.
Qed.

(* ================================================================== *)
(** ** Sets and the board enumerations *)

Section SetFacts.

Lemma set_add_In (s : list value) (x y : value) :
  In y (set_add s x) <-> In y s \/ y = x.
Proof.
  unfold set_add. destruct (contains s x) eqn:E.
  - apply contains_In in E. split; [tauto|]. intros [H| ->]; assumption.
  - rewrite in_app_iff. simpl. intuition congruence.
Qed.

Lemma set_add_NoDup (s : list value) (x : value) :
  NoDup s -> NoDup (set_add s x).
Proof.
  intros H. unfold set_add. destruct (contains s x) eqn:E; [assumption|].
  apply contains_not_In in E.
  apply NoDup_app; [assumption | repeat constructor; simpl; tauto |].
  intros a Ha [<-|[]]. contradiction.
Qed.

Lemma fold_set_add_In (xs s : list value) (y : value) :
  In y (fold_left set_add xs s) <-> In y s \/ In y xs.
Proof.
  revert s. induction xs as [|x xs IH]; intros s; simpl; [tauto|].
  rewrite IH, set_add_In. intuition congruence.
Qed.

Lemma fold_set_add_NoDup (xs s : list value) :
  NoDup s -> NoDup (fold_left set_add xs s).
Proof.
  revert s. induction xs as [|x xs IH]; intros s H; simpl; [assumption|].
  apply IH, set_add_NoDup, H.
Qed.

(** Two sets built from rearrangements of the same elements have the
    same members, hence the same size. *)
Lemma fold_set_add_Permutation (xs ys : list value) :
  Permutation xs ys ->
  Permutation (fold_left set_add xs []) (fold_left set_add ys []).
Proof.
  intros P. apply NoDup_Permutation.
  - apply fold_set_add_NoDup; constructor.
  - apply fold_set_add_NoDup; constructor.
  - intros y. rewrite !fold_set_add_In.
    split; (intros [[]|H]; right).
    + exact (Permutation_in _ P H).
    + exact (Permutation_in _ (Permutation_sym P) H).
Qed.

Lemma for_each_pure {A S : Type} (g : S -> A -> S) (xs : list A) (s : S) :
  for_each xs s (fun s x => ret (g s x)) = ret (fold_left g xs s).
Proof.
  revert s. induction xs as [|x xs IH]; intros s; cbn [for_each fold_left];
    [reflexivity|].
  rewrite bind_ret_l. apply IH.
Qed.

(** The nested loops of [legal_edge_coords] and [legal_node_coords]:
    when [touching] returns for every tile of [ids], they build the set
    of everything it returns. *)
Lemma for_each_union (touching : value -> py (list value))
    (ids acc : list value) :
  Forall (fun t => touching t = ret (returned_list (touching t))) ids ->
  for_each ids acc
    (fun acc t => ts <- touching t ;;
                  for_each ts acc (fun acc e => ret (set_add acc e))) =
  ret (fold_left set_add (flat_map (fun t => returned_list (touching t)) ids) acc).
Proof.
  intros H. revert acc.
  induction H as [|t ids Ht _ IH]; intros acc; cbn [for_each flat_map];
    [reflexivity|].
  rewrite fold_left_app. set (ts := returned_list (touching t)) in *.
  rewrite Ht, bind_ret_l, for_each_pure, bind_ret_l. apply IH.
Qed.

End SetFacts.

Lemma edges_touching_tile_returns (t : value) :
  In t legal_tile_ids ->
  edges_touching_tile t = ret (returned_list (edges_touching_tile t)).
Proof.
  intros Ht. destruct (tile_id_to_coord_legal t Ht) as (x & y & _ & E).
  rewrite (edges_touching_tile_legal t x y E). reflexivity.
Qed.

Lemma nodes_touching_tile_returns (t : value) :
  In t legal_tile_ids ->
  nodes_touching_tile t = ret (returned_list (nodes_touching_tile t)).
Proof.
  intros Ht. destruct (tile_id_to_coord_legal t Ht) as (x & y & _ & E).
  rewrite (nodes_touching_tile_legal t x y E). reflexivity.
Qed.

Lemma legal_edge_coords_over_eq (ids : list value) :
  Forall (fun t => In t legal_tile_ids) ids ->
  legal_edge_coords_over ids =
    ([debug_legal_edges],
     Return (set_of (flat_map (fun t => returned_list (edges_touching_tile t)) ids))).
Proof.
  intros H. unfold legal_edge_coords_over.
  rewrite (for_each_union edges_touching_tile).
  - reflexivity.
  - revert H. apply Forall_impl. exact edges_touching_tile_returns.
Qed.

Lemma legal_node_coords_over_eq (ids : list value) :
  Forall (fun t => In t legal_tile_ids) ids ->
  legal_node_coords_over ids =
    ([debug_legal_nodes],
     Return (set_of (flat_map (fun t => returned_list (nodes_touching_tile t)) ids))).
Proof.
  intros H. unfold legal_node_coords_over.
  rewrite (for_each_union nodes_touching_tile).
  - reflexivity.
  - revert H. apply Forall_impl. exact nodes_touching_tile_returns.
Qed.

Lemma permuted_ids_legal (ids : list value) :
  Permutation legal_tile_ids ids -> Forall (fun t => In t legal_tile_ids) ids.
Proof.
  intros P. apply Forall_forall. intros t Ht.
  exact (Permutation_in _ (Permutation_sym P) Ht).
Qed.

(** In whatever order the set [legal_tile_ids()] is iterated, the two
    enumerations return sets of 114 values each: six per tile, none
    shared between tiles. *)
Lemma legal_coords_any_order (ids : list value) :
  Permutation legal_tile_ids ids ->
  exists edges nodes,
    legal_edge_coords_over ids = ([debug_legal_edges], Return edges) /\
    legal_node_coords_over ids = ([debug_legal_nodes], Return nodes) /\
    NoDup edges /\ NoDup nodes /\
    len edges = 114 /\ len nodes = 114.
Proof.
  intros P. pose proof (permuted_ids_legal ids P) as L.
  do 2 eexists.
  split; [exact (legal_edge_coords_over_eq ids L)|].
  split; [exact (legal_node_coords_over_eq ids L)|].
  split; [apply fold_set_add_NoDup; constructor|].
  split; [apply fold_set_add_NoDup; constructor|].
  unfold len, set_of. split.
  - rewrite <- (Permutation_length
      (fold_set_add_Permutation _ _ (Permutation_flat_map _ P))).
    reflexivity.
  - rewrite <- (Permutation_length
      (fold_set_add_Permutation _ _ (Permutation_flat_map _ P))).
    reflexivity.
Qed.

(** C2, evaluated on the code: [legal_tile_ids()] has 19 elements, but
    [legal_edge_coords()] and [legal_node_coords()] have 114 elements
    each (6 for each of the 19 tiles), not 72 and 54: the values
    collected are the four-component concatenations, which two tiles
    never share. *)
Theorem legal_set_sizes :
  len legal_tile_ids = 19 /\
  exists edges nodes,
    legal_edge_coords = ([debug_legal_edges], Return edges) /\
    legal_node_coords = ([debug_legal_nodes], Return nodes) /\
    len edges = 114 /\ len nodes = 114 /\
    len edges <> 72 /\ len nodes <> 54.
Proof.
  split; [reflexivity|].
  destruct (legal_coords_any_order legal_tile_ids (Permutation_refl _))
    as (edges & nodes & He & Hn & _ & _ & Le & Ln).
  exists edges, nodes. unfold legal_edge_coords, legal_node_coords.
  repeat (split; [assumption|]). rewrite Le, Ln. lia.
Qed.

Lemma unpack2_four (x y dx dy : Z) :
  unpack2 (VTuple [x; y; dx; dy]) = raise ValueError.
Proof. reflexivity. Qed.

Lemma legal_edge_is_four_tuple (e : value) :
  In e (set_of (flat_map (fun t => returned_list (edges_touching_tile t))
                         legal_tile_ids)) ->
  exists x y dx dy, e = VTuple [x; y; dx; dy].
Proof.
  unfold set_of. rewrite fold_set_add_In, in_flat_map.
  intros [[]|(t & Ht & He)].
  destruct (tile_id_to_coord_legal t Ht) as (x & y & _ & E).
  rewrite (edges_touching_tile_legal t x y E) in He.
  unfold returned_list in He. simpl in He.
  repeat (destruct He as [<-|He]; [do 4 eexists; reflexivity|]).
  contradiction.
Qed.

(** C7, evaluated on the code: the members of [legal_edge_coords()] are
    tuples of four ints, so for every one of them [nodes_touching_edge]
    raises [ValueError] at [a, b = edge_coord] and returns no nodes. *)
Theorem nodes_touching_legal_edge_raises :
  exists edges,
    legal_edge_coords = ([debug_legal_edges], Return edges) /\
    In (VTuple [9; 3; -1; -1]) edges /\
    Forall (fun e => nodes_touching_edge e = raise ValueError) edges.
Proof.
  eexists. split.
  - exact (legal_edge_coords_over_eq legal_tile_ids
             (permuted_ids_legal _ (Permutation_refl _))).
  - split; [vm_compute; tauto|].
    apply Forall_forall. intros e He.
    destruct (legal_edge_is_four_tuple e He) as (x & y & dx & dy & ->).
    unfold nodes_touching_edge. rewrite unpack2_four. reflexivity.
Qed.

(* ================================================================== *)
(** ** Further properties: the reverse lookup [tile_id_from_coord] *)


Lemma scan_misses (d : dict) (coord : value) :
  ~ In coord (values d) ->
  Forall (fun ic : value * value =>
            (let (i, c) := ic in
             if eqb c coord then ret (Some i) else ret None) = ret None)
         (items d).
Proof.
  intros H. apply Forall_forall. intros [i c] Hic.
  destruct (eqb c coord) eqn:E; [|reflexivity].
  apply eqb_eq in E. subst c. exfalso. apply H.
  unfold values. apply (in_map snd) in Hic. exact Hic.
Qed.

(** X1: every coordinate of [legal_tile_coords()] is found again by
    [tile_id_from_coord], which returns a legal identifier without
    logging, and [tile_id_to_coord] maps that identifier back to the
    coordinate. *)
Theorem tile_coord_roundtrip (c : value) (Hc : In c legal_tile_coords) :
  exists t, In t legal_tile_ids /\
            tile_id_from_coord c = ret t /\
            tile_id_to_coord t = ret c.
Proof.
  rewrite legal_tile_coords_values in Hc. simpl in Hc.
  repeat (destruct Hc as [<-|Hc];
          [eexists; split; [|split; vm_compute; reflexivity];
           vm_compute; tauto|]).
  contradiction.
Qed.

Lemma tile_coord_roundtrip_witness :
  exists t, In t legal_tile_ids /\
            tile_id_from_coord (VTuple [21; 7]) = ret t /\
            tile_id_to_coord t = ret (VTuple [21; 7]).
Proof.
  apply (tile_coord_roundtrip (VTuple [21; 7])). vm_compute. tauto.
Defined.

(** X2: for a value that is no coordinate of the table,
    [tile_id_from_coord] never returns: it raises [Exception] when the
    value is an int, and [TypeError] (from [hex(coord)] in the message
    of the exception) when it is a tuple, a str or [None].  It logs
    nothing. *)
Theorem tile_id_from_coord_missing (c : value)
    (Hc : ~ In c legal_tile_coords) :
  tile_id_from_coord c =
    match c with
    | VInt _ => raise Exception
    | _ => raise TypeError
    end.
Proof.
  rewrite legal_tile_coords_values in Hc.
  unfold tile_id_from_coord.
  rewrite (for_return_fallthrough _ _ _ (scan_misses _ c Hc)).
  destruct c; reflexivity.
Qed.

Lemma tile_id_from_coord_missing_witness :
  tile_id_from_coord (VTuple [9; 5]) = raise TypeError /\
  tile_id_from_coord (VInt 37) = raise Exception.
Proof.
  split.
  - apply (tile_id_from_coord_missing (VTuple [9; 5])).
    vm_compute. intuition discriminate.
  - apply (tile_id_from_coord_missing (VInt 37)).
    vm_compute. intuition discriminate.
Defined.



(* ================================================================== *)
(** ** Further properties: offsets and directions *)

Section OffsetTables.

(** The three [*_offset_to_direction] functions differ in their table
    and in the record they log. *)
Variable table : dict.
Variable rec : record.

Let lookup (offset : value) : py value :=
  try_except (getitem table offset) KeyError
    (format_x offset ;;; ([rec], Return tt) ;;; ret (VStr "ZZ")).

Lemma lookup_known (offset : value) :
  In offset (keys table) ->
  exists d, In (offset, d) table /\ lookup offset = ret d.
Proof.
  intros H. destruct (getitem_present _ _ H) as (d & Hd & Hin).
  exists d. split; [assumption|]. unfold lookup. rewrite Hd. reflexivity.
Qed.

Lemma lookup_unknown (offset : value) :
  ~ In offset (keys table) ->
  lookup offset =
    match offset with
    | VInt _ => ([rec], Return (VStr "ZZ"))
    | VStr _ => raise ValueError
    | _ => raise TypeError
    end.
Proof.
  intros H. unfold lookup. rewrite (getitem_missing _ _ H).
  destruct offset; reflexivity.
Qed.

End OffsetTables.

(** X4: an offset that is not in the table of its kind never yields a
    direction.  An int offset is logged and answered with the marker
    ["ZZ"]; a tuple offset or [None] raises [TypeError] and a str offset
    raises [ValueError], both from the ['{:x}'] of the log message, and
    nothing is logged. *)
Theorem offset_to_direction_unknown (offset : value) :
  (~ In offset (keys _tile_tile_offsets) ->
     tile_tile_offset_to_direction offset =
       match offset with
       | VInt _ => ([critical_tile_tile_offset], Return (VStr "ZZ"))
       | VStr _ => raise ValueError
       | _ => raise TypeError
       end) /\
  (~ In offset (keys _tile_node_offsets) ->
     tile_node_offset_to_direction offset =
       match offset with
       | VInt _ => ([critical_tile_node_offset], Return (VStr "ZZ"))
       | VStr _ => raise ValueError
       | _ => raise TypeError
       end) /\
  (~ In offset (keys _tile_edge_offsets) ->
     tile_edge_offset_to_direction offset =
       match offset with
       | VInt _ => ([critical_tile_edge_offset], Return (VStr "ZZ"))
       | VStr _ => raise ValueError
       | _ => raise TypeError
       end).
Proof.
  split; [|split].
  - exact (lookup_unknown _tile_tile_offsets critical_tile_tile_offset offset).
  - exact (lookup_unknown _tile_node_offsets critical_tile_node_offset offset).
  - exact (lookup_unknown _tile_edge_offsets critical_tile_edge_offset offset).
Qed.

Lemma offset_to_direction_unknown_witness :
  tile_tile_offset_to_direction (VTuple [1; 1]) = raise TypeError /\
  tile_node_offset_to_direction (VInt 3) =
    ([critical_tile_node_offset], Return (VStr "ZZ")) /\
  tile_edge_offset_to_direction (VStr "E") = raise ValueError.
Proof.
  split; [|split].
  - apply (proj1 (offset_to_direction_unknown (VTuple [1; 1]))).
    vm_compute. intuition discriminate.
  - apply (proj1 (proj2 (offset_to_direction_unknown (VInt 3)))).
    vm_compute. intuition discriminate.
  - apply (proj2 (proj2 (offset_to_direction_unknown (VStr "E")))).
    vm_compute. intuition discriminate.
Defined.

Ltac try_keys ks :=
  lazymatch ks with
  | ?k :: ?rest =>
      first [ exists k; split; [vm_compute; tauto | vm_compute; reflexivity]
            | try_keys rest ]
  end.

Ltac find_in ks := let ks' := eval vm_compute in ks in try_keys ks'.

(** X5: on the six offsets of its table each [*_offset_to_direction]
    function is a bijection onto its vocabulary: it returns, without
    logging, a label of the vocabulary (sides for tile-tile and
    tile-edge, corners for tile-node), two different offsets never get
    the same label, and every label of the vocabulary is reached. *)
Theorem offset_to_direction_bijective :
  (forall o, In o (keys _tile_tile_offsets) ->
     exists d, In d side_directions /\
               tile_tile_offset_to_direction o = ret d) /\
  (forall o, In o (keys _tile_node_offsets) ->
     exists d, In d corner_directions /\
               tile_node_offset_to_direction o = ret d) /\
  (forall o, In o (keys _tile_edge_offsets) ->
     exists d, In d side_directions /\
               tile_edge_offset_to_direction o = ret d) /\
  (forall o o', In o (keys _tile_tile_offsets) ->
     In o' (keys _tile_tile_offsets) ->
     tile_tile_offset_to_direction o = tile_tile_offset_to_direction o' ->
     o = o') /\
  (forall o o', In o (keys _tile_node_offsets) ->
     In o' (keys _tile_node_offsets) ->
     tile_node_offset_to_direction o = tile_node_offset_to_direction o' ->
     o = o') /\
  (forall o o', In o (keys _tile_edge_offsets) ->
     In o' (keys _tile_edge_offsets) ->
     tile_edge_offset_to_direction o = tile_edge_offset_to_direction o' ->
     o = o') /\
  (forall d, In d side_directions ->
     exists o, In o (keys _tile_tile_offsets) /\
               tile_tile_offset_to_direction o = ret d) /\
  (forall d, In d corner_directions ->
     exists o, In o (keys _tile_node_offsets) /\
               tile_node_offset_to_direction o = ret d) /\
  (forall d, In d side_directions ->
     exists o, In o (keys _tile_edge_offsets) /\
               tile_edge_offset_to_direction o = ret d).
Proof.
  assert (Label : forall (f : value -> py value) (ks ds : list value),
            Forall (fun o => exists d, In d ds /\ f o = ret d) ks ->
            forall o, In o ks -> exists d, In d ds /\ f o = ret d).
  { intros f ks ds H o Ho. exact (proj1 (Forall_forall _ ks) H o Ho). }
  assert (Inj : forall (f : value -> py value) (ks : list value),
            Forall (fun o => Forall (fun o' => f o = f o' -> o = o') ks) ks ->
            forall o o', In o ks -> In o' ks -> f o = f o' -> o = o').
  { intros f ks H o o' Ho Ho'.
    pose proof (proj1 (Forall_forall _ ks) H o Ho) as H'.
    exact (proj1 (Forall_forall _ ks) H' o' Ho'). }
  assert (Onto : forall (f : value -> py value) (ks ds : list value),
            Forall (fun d => exists o, In o ks /\ f o = ret d) ds ->
            forall d, In d ds -> exists o, In o ks /\ f o = ret d).
  { intros f ks ds H d Hd. exact (proj1 (Forall_forall _ ds) H d Hd). }
  split; [|split; [|split; [|split; [|split; [|split; [|split; [|split]]]]]]].
  - apply Label. repeat (apply Forall_cons; [find_in side_directions|]).
    apply Forall_nil.
  - apply Label. repeat (apply Forall_cons; [find_in corner_directions|]).
    apply Forall_nil.
  - apply Label. repeat (apply Forall_cons; [find_in side_directions|]).
    apply Forall_nil.
  - apply Inj.
    repeat (apply Forall_cons;
            [repeat (apply Forall_cons;
                     [intros E; vm_compute in E;
                      first [reflexivity | discriminate E]|]);
             apply Forall_nil|]).
    apply Forall_nil.
  - apply Inj.
    repeat (apply Forall_cons;
            [repeat (apply Forall_cons;
                     [intros E; vm_compute in E;
                      first [reflexivity | discriminate E]|]);
             apply Forall_nil|]).
    apply Forall_nil.
  - apply Inj.
    repeat (apply Forall_cons;
            [repeat (apply Forall_cons;
                     [intros E; vm_compute in E;
                      first [reflexivity | discriminate E]|]);
             apply Forall_nil|]).
    apply Forall_nil.
  - apply Onto.
    repeat (apply Forall_cons; [find_in (keys _tile_tile_offsets)|]).
    apply Forall_nil.
  - apply Onto.
    repeat (apply Forall_cons; [find_in (keys _tile_node_offsets)|]).
    apply Forall_nil.
  - apply Onto.
    repeat (apply Forall_cons; [find_in (keys _tile_edge_offsets)|]).
    apply Forall_nil.
Qed.

(* ================================================================== *)
(** ** Further properties: neighbours of a tile *)

Lemma in_side_directions_dec (d : value) :
  {In d side_directions} + {~ In d side_directions}.
Proof.
  destruct (contains side_directions d) eqn:E.
  - left. apply contains_In; assumption.
  - right. apply contains_not_In; assumption.
Qed.







(* ================================================================== *)
(** ** Further properties: coordinates by direction, and the dispatcher *)






(* ================================================================== *)
(** ** Further properties: the coast *)

Lemma permuted_ids_head (ids : list value) :
  Permutation legal_tile_ids ids ->
  exists t rest, ids = t :: rest /\ In t legal_tile_ids.
Proof.
  intros P. destruct ids as [|t rest].
  - apply Permutation_length in P. discriminate P.
  - exists t, rest. split; [reflexivity|].
    apply (Permutation_in _ (Permutation_sym P)). left; reflexivity.
Qed.

(** X11: [coastal_tile_ids] and [coastal_coords] return no list.  In
    whatever order the set of legal identifiers is filtered, the first
    call of [coastal_edges] raises [TypeError], which neither function
    catches; nothing is logged. *)
Theorem coastal_enumerations_raise :
  (forall ids, Permutation legal_tile_ids ids ->
     coastal_tile_ids_over ids = raise TypeError) /\
  coastal_tile_ids = raise TypeError /\
  coastal_coords = raise TypeError.
Proof.
  assert (H : forall ids, Permutation legal_tile_ids ids ->
                coastal_tile_ids_over ids = raise TypeError).
  { intros ids P. destruct (permuted_ids_head ids P) as (t & rest & -> & Ht).
    unfold coastal_tile_ids_over. cbn [for_each].
    rewrite (coastal_edges_legal t Ht). reflexivity. }
  split; [exact H|].
  assert (E : coastal_tile_ids = raise TypeError)
    by exact (H legal_tile_ids (Permutation_refl _)).
  split; [exact E|].
  unfold coastal_coords. rewrite E. reflexivity.
Qed.

Lemma coastal_enumerations_raise_witness :
  coastal_tile_ids_over (rev legal_tile_ids) = raise TypeError.
Proof.
  apply (proj1 coastal_enumerations_raise (rev legal_tile_ids)).
  apply Permutation_rev.
Defined.

(* ================================================================== *)
(** ** Further properties: the nearest tile *)

Section Nearest.

(** The search loop of the two [nearest_tile_to_*_using_tiles]
    functions, over the keys [ks] of an offset table; [notfound] is the
    code after the loop. *)
Variable ks : list value.
Variable notfound : py value.
Hypothesis ks_no_int : forall z, ~ In (VInt z) ks.

Let body (coord : value) (tile_id : value) : py (option value) :=
  c <- tile_id_to_coord tile_id ;;
  offset <- sub coord c ;;
  if contains ks offset then ret (Some tile_id) else ret None.








End Nearest.







(** X14: [nearest_tile_to_edge] and [nearest_tile_to_node], which search
    the legal tiles, find nothing: for every coordinate, and in whatever
    order the set of legal identifiers is iterated, the first candidate
    makes them raise [TypeError], with nothing logged. *)
Theorem nearest_tile_raises (coord : value) :
  nearest_tile_to_edge coord = raise TypeError /\
  nearest_tile_to_node coord = raise TypeError /\
  (forall ids, Permutation legal_tile_ids ids ->
     nearest_tile_to_edge_using_tiles ids coord = raise TypeError /\
     nearest_tile_to_node_using_tiles ids coord = raise TypeError).
Proof.
  assert (H : forall ids, Permutation legal_tile_ids ids ->
     nearest_tile_to_edge_using_tiles ids coord = raise TypeError /\
     nearest_tile_to_node_using_tiles ids coord = raise TypeError).
  { intros ids P. destruct (permuted_ids_head ids P) as (t & rest & -> & Ht).
    destruct (tile_id_to_coord_legal t Ht) as (x & y & _ & E).
    unfold nearest_tile_to_edge_using_tiles, nearest_tile_to_node_using_tiles.
    cbn [for_return]. rewrite E, !bind_ret_l, sub_tuple_r.
    split; reflexivity. }
  destruct (H legal_tile_ids (Permutation_refl _)) as [He Hn].
  split; [exact He|]. split; [exact Hn | exact H].
Qed.

Lemma nearest_tile_raises_witness :
  nearest_tile_to_edge_using_tiles (rev legal_tile_ids) (VTuple [8; 2]) =
    raise TypeError /\
  nearest_tile_to_node_using_tiles (rev legal_tile_ids) (VTuple [8; 2]) =
    raise TypeError.
Proof.
  apply (proj2 (proj2 (nearest_tile_raises (VTuple [8; 2])))
           (rev legal_tile_ids)).
  apply Permutation_rev.
Defined.

(* ================================================================== *)
(** ** Further properties: the nodes of an edge *)

Lemma nodes_touching_edge_pair (a b : Z) :
  nodes_touching_edge (VTuple [a; b]) =
    if a mod 2 =? 0
    then ret [VTuple [a + 1; b]; VTuple [a - 1; b]]
    else ret [VTuple [a; b - 1]; VTuple [a; b + 1]].
Proof.
  unfold nodes_touching_edge.
  change (unpack2 (VTuple [a; b])) with (ret (Ints a b)).
  rewrite bind_ret_l. reflexivity.
Qed.

(** X15: the errors of [nodes_touching_edge].  A tuple of ints whose
    length is not 2 raises [ValueError] at the unpacking; an int or
    [None] raises [TypeError] there; a str never returns: it raises
    [ValueError] unless it has exactly two code points, and then
    [ValueError] if the first is ["%"] and [TypeError] if not (raised by
    [a % 2]).  Nothing is logged in any of these cases. *)
Theorem nodes_touching_edge_errors :
  (forall zs, List.length zs <> 2%nat ->
     nodes_touching_edge (VTuple zs) = raise ValueError) /\
  nodes_touching_edge VNone = raise TypeError /\
  (forall z, nodes_touching_edge (VInt z) = raise TypeError) /\
  (forall s, List.length (code_points s) <> 2%nat ->
     nodes_touching_edge (VStr s) = raise ValueError) /\
  (forall s a b, code_points s = [a; b] ->
     nodes_touching_edge (VStr s) =
       if String.eqb a "%" then raise ValueError else raise TypeError) /\
  (forall s, fails (nodes_touching_edge (VStr s))).
Proof.
  assert (Two : forall s a b, code_points s = [a; b] ->
            nodes_touching_edge (VStr s) =
              if String.eqb a "%" then raise ValueError else raise TypeError).
  { intros s a b E. unfold nodes_touching_edge, unpack2. rewrite E.
    rewrite bind_ret_l. reflexivity. }
  assert (Other : forall s, List.length (code_points s) <> 2%nat ->
            nodes_touching_edge (VStr s) = raise ValueError).
  { intros s H. unfold nodes_touching_edge, unpack2.
    destruct (code_points s) as [|a [|b [|c cps]]]; try reflexivity.
    exfalso. apply H. reflexivity. }
  split; [|split; [|split; [|split; [|split]]]].
  - intros [|a [|b [|c zs]]] H; try reflexivity.
    exfalso. apply H. reflexivity.
  - reflexivity.
  - reflexivity.
  - exact Other.
  - exact Two.
  - intros s. unfold fails.
    destruct (code_points s) as [|a [|b [|c cps]]] eqn:E;
      try (exists ValueError; rewrite Other;
           [reflexivity | rewrite E; discriminate]).
    rewrite (Two s a b E).
    destruct (String.eqb a "%");
      [exists ValueError | exists TypeError]; reflexivity.
Qed.

Lemma nodes_touching_edge_errors_witness :
  nodes_touching_edge (VTuple [9; 3; -1; -1]) = raise ValueError /\
  nodes_touching_edge (VStr "NW") = raise TypeError /\
  nodes_touching_edge (VStr "%d") = raise ValueError /\
  nodes_touching_edge (VStr "N") = raise ValueError /\
  nodes_touching_edge (VStr "€1") = raise TypeError.
Proof.
  split; [|split; [|split; [|split]]].
  - apply (proj1 nodes_touching_edge_errors [9; 3; -1; -1]). discriminate.
  - apply (proj1 (proj2 (proj2 (proj2 (proj2 nodes_touching_edge_errors))))
             "NW" "N" "W").
    reflexivity.
  - apply (proj1 (proj2 (proj2 (proj2 (proj2 nodes_touching_edge_errors))))
             "%d" "%" "d").
    reflexivity.
  - apply (proj1 (proj2 (proj2 (proj2 nodes_touching_edge_errors))) "N").
    discriminate.
  - apply (proj1 (proj2 (proj2 (proj2 (proj2 nodes_touching_edge_errors))))
             "€1" "€" "1").
    reflexivity.
Defined.

(** X16: for every pair of ints the two nodes returned are distinct,
    both lie in an odd column (their first component is odd), and the
    edge is their midpoint: the components of the two nodes add up to
    twice those of the edge. *)
Theorem nodes_touching_edge_midpoint (a b : Z) :
  exists x1 y1 x2 y2,
    nodes_touching_edge (VTuple [a; b]) =
      ret [VTuple [x1; y1]; VTuple [x2; y2]] /\
    VTuple [x1; y1] <> VTuple [x2; y2] /\
    Z.Odd x1 /\ Z.Odd x2 /\
    x1 + x2 = 2 * a /\ y1 + y2 = 2 * b.
Proof.
  rewrite nodes_touching_edge_pair.
  destruct (a mod 2 =? 0) eqn:E.
  - apply Z.eqb_eq in E.
    exists (a + 1), b, (a - 1), b.
    split; [reflexivity|]. split; [intros H; inversion H; lia|].
    split; [exists (a / 2); pose proof (Z.div_mod a 2); lia|].
    split; [exists (a / 2 - 1); pose proof (Z.div_mod a 2); lia|].
    lia.
  - apply Z.eqb_neq in E.
    assert (Hm : a mod 2 = 1)
      by (pose proof (Z.mod_pos_bound a 2); lia).
    exists a, (b - 1), a, (b + 1).
    split; [reflexivity|]. split; [intros H; inversion H; lia|].
    split; [exists (a / 2); pose proof (Z.div_mod a 2); lia|].
    split; [exists (a / 2); pose proof (Z.div_mod a 2); lia|].
    lia.
Qed.

Lemma two_nodes_eq (a b c d a' b' c' d' : Z) :
  a = a' -> b = b' -> c = c' -> d = d' ->
  @ret (list value) [VTuple [a; b]; VTuple [c; d]] =
  ret [VTuple [a'; b']; VTuple [c'; d']].
Proof. intros -> -> -> ->. reflexivity. Qed.

Lemma tile_coords_odd (t : value) (x y : Z) :
  In (t, VTuple [x; y]) _tile_id_to_coord -> x mod 2 = 1 /\ y mod 2 = 1.
Proof.
  simpl. intros H.
  repeat (destruct H as [H|H]; [inversion H; split; reflexivity|]).
  contradiction.
Qed.

(** X17: the parity rule agrees with the offset tables.  For the
    coordinate [(x, y)] of a tile of the table and an offset [(dx, dy)]
    of the tile-edge table, the two nodes of the edge at
    [(x + dx, y + dy)] are corners of that tile: each is [(x, y)]
    displaced by an offset of the tile-node table. *)
Theorem edge_nodes_are_tile_corners (t : value) (x y dx dy : Z)
    (Ht : In (t, VTuple [x; y]) _tile_id_to_coord)
    (Ho : In (VTuple [dx; dy]) (keys _tile_edge_offsets)) :
  exists nx ny mx my,
    In (VTuple [nx; ny]) (keys _tile_node_offsets) /\
    In (VTuple [mx; my]) (keys _tile_node_offsets) /\
    nodes_touching_edge (VTuple [x + dx; y + dy]) =
      ret [VTuple [x + nx; y + ny]; VTuple [x + mx; y + my]].
Proof.
  destruct (tile_coords_odd t x y Ht) as [Hx _].
  assert (Even : forall d, d mod 2 = 1 -> ((x + d) mod 2 =? 0) = true).
  { intros d Hd. apply Z.eqb_eq. rewrite Z.add_mod, Hx, Hd by lia. reflexivity. }
  assert (Odd : forall d, d mod 2 = 0 -> ((x + d) mod 2 =? 0) = false).
  { intros d Hd. apply Z.eqb_neq. rewrite Z.add_mod, Hx, Hd by lia.
    discriminate. }
  rewrite nodes_touching_edge_pair.
  simpl in Ho.
  destruct Ho as [Ho|[Ho|[Ho|[Ho|[Ho|[Ho|[]]]]]]]; inversion Ho; subst dx dy.
  - rewrite (Even (-1)) by reflexivity. exists 0, (-1), (-2), (-1).
    split; [simpl; tauto|]. split; [simpl; tauto|]. apply two_nodes_eq; lia.
  - rewrite (Odd (-2)) by reflexivity. exists (-2), (-1), (-2), 1.
    split; [simpl; tauto|]. split; [simpl; tauto|]. apply two_nodes_eq; lia.
  - rewrite (Even (-1)) by reflexivity. exists 0, 1, (-2), 1.
    split; [simpl; tauto|]. split; [simpl; tauto|]. apply two_nodes_eq; lia.
  - rewrite (Even 1) by reflexivity. exists 2, 1, 0, 1.
    split; [simpl; tauto|]. split; [simpl; tauto|]. apply two_nodes_eq; lia.
  - rewrite (Odd 2) by reflexivity. exists 2, (-1), 2, 1.
    split; [simpl; tauto|]. split; [simpl; tauto|]. apply two_nodes_eq; lia.
  - rewrite (Even 1) by reflexivity. exists 2, (-1), 0, (-1).
    split; [simpl; tauto|]. split; [simpl; tauto|]. apply two_nodes_eq; lia.
Qed.

Lemma edge_nodes_are_tile_corners_witness :
  exists nx ny mx my,
    In (VTuple [nx; ny]) (keys _tile_node_offsets) /\
    In (VTuple [mx; my]) (keys _tile_node_offsets) /\
    nodes_touching_edge (VTuple [13 + -1; 7 + 1]) =
      ret [VTuple [13 + nx; 7 + ny]; VTuple [13 + mx; 7 + my]].
Proof.
  apply (edge_nodes_are_tile_corners (VInt 19) 13 7 (-1) 1).
  - vm_compute. tauto.
  - vm_compute. tauto.
Defined.

(* ================================================================== *)
(** ** Further properties: the legal sets *)

Lemma set_of_flat_map_In (f : value -> py (list value)) (ids : list value)
    (c : value) :
  Permutation legal_tile_ids ids ->
  (forall t, In t legal_tile_ids -> f t = ret (returned_list (f t))) ->
  (In c (set_of (flat_map (fun t => returned_list (f t)) ids)) <->
   exists t cs, In t legal_tile_ids /\ f t = ret cs /\ In c cs).
Proof.
  intros P Hf. unfold set_of. rewrite fold_set_add_In, in_flat_map. split.
  - intros [[]|(t & Ht & Hc)].
    apply (Permutation_in _ (Permutation_sym P)) in Ht.
    exists t, (returned_list (f t)). auto.
  - intros (t & cs & Ht & E & Hc). right. exists t. split.
    + exact (Permutation_in _ P Ht).
    + rewrite E. exact Hc.
Qed.

(** X18: [legal_edge_coords] and [legal_node_coords] return the union of
    what [edges_touching_tile] and [nodes_touching_tile] return over the
    legal tiles: in whatever order the tiles are visited, the result has
    no duplicates and a value is a member exactly when some legal tile
    touches it.  Each call logs one debug record. *)
Theorem legal_coords_are_unions (ids : list value)
    (P : Permutation legal_tile_ids ids) :
  exists edges nodes,
    legal_edge_coords_over ids = ([debug_legal_edges], Return edges) /\
    legal_node_coords_over ids = ([debug_legal_nodes], Return nodes) /\
    NoDup edges /\ NoDup nodes /\
    (forall e, In e edges <->
       exists t es, In t legal_tile_ids /\
                    edges_touching_tile t = ret es /\ In e es) /\
    (forall n, In n nodes <->
       exists t ns, In t legal_tile_ids /\
                    nodes_touching_tile t = ret ns /\ In n ns).
Proof.
  pose proof (permuted_ids_legal ids P) as L.
  do 2 eexists.
  split; [exact (legal_edge_coords_over_eq ids L)|].
  split; [exact (legal_node_coords_over_eq ids L)|].
  split; [apply fold_set_add_NoDup; constructor|].
  split; [apply fold_set_add_NoDup; constructor|].
  split.
  - intros e. apply (set_of_flat_map_In edges_touching_tile ids e P).
    exact edges_touching_tile_returns.
  - intros n. apply (set_of_flat_map_In nodes_touching_tile ids n P).
    exact nodes_touching_tile_returns.
Qed.

Lemma legal_coords_are_unions_witness :
  exists edges nodes,
    legal_edge_coords_over (rev legal_tile_ids) =
      ([debug_legal_edges], Return edges) /\
    legal_node_coords_over (rev legal_tile_ids) =
      ([debug_legal_nodes], Return nodes) /\
    NoDup edges /\ NoDup nodes.
Proof.
  destruct (legal_coords_are_unions (rev legal_tile_ids)
              (Permutation_rev legal_tile_ids))
    as (edges & nodes & He & Hn & De & Dn & _).
  exists edges, nodes. auto.
Defined.

Lemma none_contained (xs ys : list value) :
  forallb (fun x => negb (contains ys x)) xs = true ->
  forall c, In c xs -> ~ In c ys.
Proof.
  intros H c Hc. rewrite forallb_forall in H.
  apply contains_not_In. apply negb_true_iff. exact (H c Hc).
Qed.

(** X19: the three legal sets do not overlap: no value returned by
    [legal_edge_coords()] is in [legal_node_coords()], and none of
    either is in [legal_tile_coords()]. *)
Theorem legal_sets_disjoint :
  exists edges nodes,
    legal_edge_coords = ([debug_legal_edges], Return edges) /\
    legal_node_coords = ([debug_legal_nodes], Return nodes) /\
    (forall c, In c edges -> ~ In c nodes) /\
    (forall c, In c edges -> ~ In c legal_tile_coords) /\
    (forall c, In c nodes -> ~ In c legal_tile_coords).
Proof.
  exists (returned_list legal_edge_coords), (returned_list legal_node_coords).
  split; [vm_compute; reflexivity|].
  split; [vm_compute; reflexivity|].
  split; [|split]; apply none_contained; vm_compute; reflexivity.
Qed.

(** X20: [legal_tile_ids()] is the ints 1 to 19, each once, as its
    docstring says, and [legal_tile_coords()] has as many members: 19
    different tuples, each of two odd ints. *)
Theorem legal_tiles_one_to_nineteen :
  NoDup legal_tile_ids /\
  (forall t, In t legal_tile_ids <-> exists z, t = VInt z /\ 1 <= z <= 19) /\
  NoDup legal_tile_coords /\
  len legal_tile_coords = 19 /\
  (forall c, In c legal_tile_coords ->
     exists x y, c = VTuple [x; y] /\ Z.Odd x /\ Z.Odd y).
Proof.
  split; [apply fold_set_add_NoDup; constructor|].
  split; [exact legal_tile_ids_range|].
  split; [apply fold_set_add_NoDup; constructor|].
  split; [reflexivity|].
  intros c Hc. rewrite legal_tile_coords_values in Hc.
  unfold values in Hc. apply in_map_iff in Hc.
  destruct Hc as ([t c'] & <- & Hin). simpl.
  destruct (tile_coords_are_pairs t c' Hin) as (x & y & ->).
  destruct (tile_coords_odd t x y Hin) as [Hx Hy].
  exists x, y. split; [reflexivity|].
  split; [exists (x / 2); pose proof (Z.div_mod x 2); lia
         | exists (y / 2); pose proof (Z.div_mod y 2); lia].
Qed.
